(** * 7tv website and deployment manifests

    The development follows the sources file by file:
    - [Select]         apps/website/src/components/input/select.svelte
    - [SpecialEvents]  the admin special-events page (query and table body)
    - [Settings]       website/src/routes/settings/+page.ts
    - [Gql]            the GraphQL client as the loaders call it
    - [Proxy]          the ProxyState wrapper used by [UserLayout]
    - [UserLayout]     apps/website/src/routes/users/[id]/+layout.ts
    - [EmoteLayout]    the emote route loader
    - [Activities]     the ClickHouse activity tables
    - [ImageProcessor] infrastructure/cluster/kubectl/app/image-processor.yaml
    - [Theme]          apps/website/src/styles/variables.scss

    Definitions come first, one module per source; the properties follow. *)

From stdpp Require Import base option list strings gmap.
From Stdlib Require Import ZArith Lia.

Local Open Scope string_scope.
Local Open Scope list_scope.
Set Warnings "-register-all,-clear-no-such-hyp".

(** ** JavaScript values and promises *)

Module Js.

(** The outcome of a promise once it has settled.  [then] callbacks that
    [throw] settle the derived promise as [Rejected]. *)
Inductive settled (A E : Type) : Type :=
| Fulfilled (v : A)
| Rejected (reason : E).
Global Arguments Fulfilled {A E} v.
Global Arguments Rejected {A E} reason.

(** What an observer sees of a promise at one moment. *)
Inductive promise_state (A E : Type) : Type :=
| Pending
| Settled (s : settled A E).
Global Arguments Pending {A E}.
Global Arguments Settled {A E} s.

(** A promise over the event loop's time line: it settles once, at tick
    [t], and keeps that outcome, or it never settles. *)
Inductive promise (A E : Type) : Type :=
| Never
| SettlesAt (t : nat) (o : settled A E).
Global Arguments Never {A E}.
Global Arguments SettlesAt {A E} t o.

(** The state of [p] observed at tick [now]. *)
Definition poll {A E : Type} (p : promise A E) (now : nat) : promise_state A E :=
  match p with
  | Never => Pending
  | SettlesAt t o => if (t <=? now)%nat then Settled o else Pending
  end.

(** [p.then(cb)] with a single callback: [cb] runs on the value [p] is
    fulfilled with and its return or throw settles the derived promise; a
    rejection of [p] passes through unchanged. *)
Definition then_ {A B E : Type} (p : promise A E) (cb : A -> settled B E)
  : promise B E :=
  match p with
  | Never => Never
  | SettlesAt t (Fulfilled v) => SettlesAt t (cb v)
  | SettlesAt t (Rejected e) => SettlesAt t (Rejected e)
  end.

(** [p] eventually settles with [o]: from some tick on, every observer
    finds it settled with that outcome. *)
Definition eventually_settles {A E : Type} (p : promise A E) (o : settled A E) : Prop :=
  exists t : nat, forall now : nat, (t <= now)%nat -> poll p now = Settled o.

(** The tick at which a promise settles, if it ever does. *)
Definition settle_tick {A E : Type} (p : promise A E) : option nat :=
  match p with
  | Never => None
  | SettlesAt t _ => Some t
  end.

(** A value that may be [undefined] (optional chaining, absent props). *)
Definition optional (A : Type) : Type := option A.

(** A value that may be [null] (a nullable field of a query result). *)
Definition nullable (A : Type) : Type := option A.

(** [a ?? b] *)
Definition nullish {A : Type} (a : optional A) (b : optional A) : optional A :=
  match a with
  | Some v => Some v
  | None => b
  end.

(** [a ?? b] where [b] is never [undefined] *)
Definition nullish_or {A : Type} (a : optional A) (b : A) : A :=
  match a with
  | Some v => v
  | None => b
  end.

(** [s === o] for a string [s] against a value that is a string or
    [undefined]: strict equality never identifies a string with
    [undefined]. *)
Definition strict_eq (s : string) (o : optional string) : bool :=
  match o with
  | Some s' => bool_decide (s = s')
  | None => false
  end.

(** JavaScript values as far as truthiness distinguishes them. *)
Inductive value : Type :=
| VUndefined
| VNull
| VBool (b : bool)
| VNumber (n : Z)
| VNaN
| VString (s : string)
| VObject (fields : list (string * string)).

(** ToBoolean: [undefined], [null], [false], [0], [NaN] and the empty
    string are falsy; everything else, every object included, is truthy. *)
Definition truthy (v : value) : bool :=
  match v with
  | VUndefined => false
  | VNull => false
  | VBool b => b
  | VNumber n => negb (n =? 0)%Z
  | VNaN => false
  | VString s => negb (bool_decide (s = ""))
  | VObject _ => true
  end.

(** Equality of values is decidable; variables of requests are compared
    with it. *)
#[global] Instance value_eq_dec : EqDecision value.
Proof. solve_decision. Defined.

End Js.

(** ** The Select component (select.svelte) *)

Module Select.
Import Js.

(** A snippet is an opaque renderable fragment handed in by the caller. *)
Inductive Snippet : Type := SnippetRef (name : string).

(** [type Option = { value: string; label: string; icon?: Snippet }] *)
Record Option := mkOption {
  value : string;
  label : string;
  icon : optional Snippet;
}.

(** The props the script destructures (the rest props play no role in the
    state). [selected_prop] is [None] when the caller binds nothing. *)
Record Props := mkProps {
  options : list Option;
  selected_prop : optional string;
  grow : bool;
  disabled : bool;
}.

(** Component state: the bindable [selected], [expanded] and [width]. *)
Record State := mkState {
  selected : optional string;
  expanded : bool;
  width : optional nat;
}.

(** [selected = $bindable(options[0]?.value ?? undefined)]: the fallback
    is taken only when the prop is absent. *)
Definition selected_default (opts : list Option) : optional string :=
  nullish (value <$> opts !! 0%nat) None.

Definition init (p : Props) : State :=
  {| selected := match selected_prop p with
                 | Some s => Some s
                 | None => selected_default (options p)
                 end;
     expanded := false;
     width := None |}.

(** [let selectedLabel = $derived(options.find((o) => o.value === selected))] *)
Definition selectedLabel (opts : list Option) (sel : optional string)
  : optional Option :=
  List.find (fun o => strict_eq (value o) sel) opts.

(** [function toggle() { expanded = !expanded; }] *)
Definition toggle (st : State) : State :=
  {| selected := selected st; expanded := negb (expanded st); width := width st |}.

(** [function close() { expanded = false; }] *)
Definition close (st : State) : State :=
  {| selected := selected st; expanded := false; width := width st |}.

(** [function select(option: string) { selected = option; expanded = false; }] *)
Definition select (option : string) (st : State) : State :=
  {| selected := Some option; expanded := false; width := width st |}.

(** Event handlers attached to the markup. *)
Inductive Handler : Type :=
| OnToggle
| OnSelect (v : string).

Definition handle (h : Handler) (st : State) : State :=
  match h with
  | OnToggle => toggle st
  | OnSelect v => select v st
  end.

(** The rendered tree, as far as the template decides it. *)
Inductive Markup : Type :=
| Text (s : string)
| Translate (key : string)
| Render (s : Snippet)
| NativeOption (v : string)
| NativeSelect (bound : optional string) (children : list Markup)
| Button (onclick : Handler) (children : list Markup)
| Dropped (children : list Markup)
| Root (is_expanded : bool) (children : list Markup).

(** [{@render o.icon?.()}] *)
Definition render_icon (i : optional Snippet) : list Markup :=
  match i with
  | Some s => [Render s]
  | None => []
  end.

(** The content of the secondary button:
    [{#if selectedLabel} icon, label {:else} {$t("labels.select")} {/if}] *)
Definition button_content (opts : list Option) (sel : optional string)
  : list Markup :=
  match selectedLabel opts sel with
  | Some o => render_icon (icon o) ++ [Text (label o)]
  | None => [Translate "labels.select"]
  end.

(** [{#if expanded} <div class="dropped"> ... {/if}] *)
Definition dropdown (opts : list Option) (st : State) : list Markup :=
  if expanded st then
    [Dropped (map (fun o => Button (OnSelect (value o))
                              (render_icon (icon o) ++ [Text (label o)])) opts)]
  else [].

Definition render (p : Props) (st : State) : Markup :=
  Root (expanded st)
    ([NativeSelect (selected st) (map (fun o => NativeOption (value o)) (options p));
      Button OnToggle (button_content (options p) (selected st))]
     ++ dropdown (options p) st).

(** What can happen to the component.  A click on the button, or a click
    or key press on the native select, fires [toggle]; a click on a dropped
    button fires [select]; [use:mouseTrap={close}] calls [close];
    [bind:value={selected}] writes the native select's choice to
    [selected]; [bind:offsetWidth={width}] writes the measured width of
    the dropped list. *)
Inductive Event : Type :=
| Fire (h : Handler)
| MouseTrap
| NativeChange (v : string)
| Measured (w : nat).

Definition step (st : State) (e : Event) : State :=
  match e with
  | Fire h => handle h st
  | MouseTrap => close st
  | NativeChange v =>
      {| selected := Some v; expanded := expanded st; width := width st |}
  | Measured w =>
      {| selected := selected st; expanded := expanded st; width := Some w |}
  end.

(** A sequence of events, oldest first. *)
Definition run (es : list Event) (st : State) : State := fold_left step es st.

(** The value an event writes to [selected], if it writes one. *)
Definition chosen (e : Event) : optional string :=
  match e with
  | Fire (OnSelect v) => Some v
  | NativeChange v => Some v
  | _ => None
  end.

(** The [onclick] handlers of the buttons among some nodes. *)
Definition button_handlers (ms : list Markup) : list Handler :=
  omap (fun m => match m with Button h _ => Some h | _ => None end) ms.

(** The values the native [<select>] of a rendering offers, in order. *)
Definition native_values (m : Markup) : list string :=
  match m with
  | Root _ children =>
      flat_map (fun c =>
                  match c with
                  | NativeSelect _ os =>
                      omap (fun o => match o with NativeOption v => Some v | _ => None end) os
                  | _ => []
                  end) children
  | _ => []
  end.

(** The handlers a user can reach in the dropped list as rendered. *)
Definition dropped_handlers (opts : list Option) (st : State) : list Handler :=
  flat_map (fun m => match m with Dropped cs => button_handlers cs | _ => [] end)
           (dropdown opts st).

End Select.

(** ** The admin special-events page: query and table body *)

Module SpecialEvents.
Import Js.

Record UserRef := mkUserRef {
  user_id : string;
  platformDisplayName : optional string;
}.

Record SpecialEvent := mkSpecialEvent {
  id : string;
  name : string;
  description : string;
  tags : list string;
  createdBy : optional UserRef;
  createdAt : string;
}.

(** The part of the client's answer the page reads: [res.data], and in it
    [specialEvents.specialEvents]. *)
Record QueryData := mkQueryData {
  specialEvents : list SpecialEvent;
}.

Record QueryResult := mkQueryResult {
  data : optional QueryData;
}.

(** [return res.data?.specialEvents.specialEvents;] *)
Definition querySpecialEvents (res : QueryResult) : optional (list SpecialEvent) :=
  specialEvents <$> data res.

(** [type DialogMode] as the page uses it. *)
Inductive DialogMode : Type := hidden | shown.

(** Page state: [results] is unassigned until the effect has run, then it
    holds the promise returned by [querySpecialEvents]. *)
Record State := mkState {
  results : optional (promise_state (optional (list SpecialEvent)) string);
  createDialogMode : DialogMode;
  assignEntitlementsDialog : optional string;
  viewEntitlementsDialog : optional string;
}.

(** What the [<tbody>] holds. *)
Inductive Node : Type :=
| SpinnerRow
| AssignEntitlementDialog (mode : DialogMode) (from_id fromName : string)
| ViewEntitlementDialog (mode : DialogMode) (from_id fromName : string)
| EventRow (ev_name ev_description ev_tags : string)
           (ev_createdBy : optional UserRef) (ev_createdAt : string)
| MessageRow (text : string).

(** The getter of [bind:mode]:
    [dialog === specialEvent.id ? "shown" : "hidden"] *)
Definition dialog_mode (open : optional string) (ev : SpecialEvent) : DialogMode :=
  if strict_eq (id ev) open then shown else hidden.

(** [specialEvent.tags.join(", ")] *)
Definition join_tags (ts : list string) : string := String.concat ", " ts.

(** One iteration of [{#each results as specialEvent}]: two dialogs and
    the row. *)
Definition each_event (st : State) (ev : SpecialEvent) : list Node :=
  [ AssignEntitlementDialog (dialog_mode (assignEntitlementsDialog st) ev) (id ev) (name ev);
    ViewEntitlementDialog (dialog_mode (viewEntitlementsDialog st) ev) (id ev) (name ev);
    EventRow (name ev) (description ev) (join_tags (tags ev)) (createdBy ev) (createdAt ev) ].

(** [{#if results && results.length > 0} ... {:else} No Special Events {/if}] *)
Definition then_block (st : State) (res : optional (list SpecialEvent)) : list Node :=
  match res with
  | Some evs =>
      if (0 <? length evs)%nat then flat_map (each_event st) evs
      else [MessageRow "No Special Events"]
  | None => [MessageRow "No Special Events"]
  end.

(** [{#await results} spinner {:then results} ... {/await}]: a value that
    is not a promise counts as already resolved, and with no [{:catch}]
    branch a rejection renders nothing. *)
Definition tbody (st : State) : list Node :=
  match results st with
  | None => then_block st None
  | Some Pending => [SpinnerRow]
  | Some (Settled (Fulfilled v)) => then_block st v
  | Some (Settled (Rejected _)) => []
  end.

Definition is_event_row (n : Node) : bool :=
  match n with
  | EventRow _ _ _ _ _ => true
  | _ => false
  end.

Definition is_empty_state (n : Node) : bool :=
  match n with
  | MessageRow t => bool_decide (t = "No Special Events")
  | _ => false
  end.

(** The page state in which the query has resolved with [evs]. *)
Definition resolved_with (st : State) (evs : optional (list SpecialEvent)) : State :=
  {| results := Some (Settled (Fulfilled evs));
     createDialogMode := createDialogMode st;
     assignEntitlementsDialog := assignEntitlementsDialog st;
     viewEntitlementsDialog := viewEntitlementsDialog st |}.

(** [{#await results then results}{#if results}<p>Found {results.length}
    results</p>{/if}{/await}]: the count shown above the table, if it is
    shown.  An array is truthy even when empty. *)
Definition found_banner (st : State) : optional nat :=
  match results st with
  | Some (Settled (Fulfilled (Some evs))) => Some (length evs)
  | _ => None
  end.

(** The table row of one event. *)
Definition row_of (ev : SpecialEvent) : Node :=
  EventRow (name ev) (description ev) (join_tags (tags ev)) (createdBy ev) (createdAt ev).

(** [bind:mode={createDialogMode}] on the create dialog, and the click on
    "Add Special Event": [createDialogMode = "shown"]. *)
Definition set_createDialogMode (mode : DialogMode) (st : State) : State :=
  {| results := results st;
     createDialogMode := mode;
     assignEntitlementsDialog := assignEntitlementsDialog st;
     viewEntitlementsDialog := viewEntitlementsDialog st |}.

(** [$effect(() => { if (createDialogMode === "hidden") results =
    querySpecialEvents(); })]: the call returns a promise that is still
    pending when it is assigned. *)
Definition effect (st : State) : State :=
  match createDialogMode st with
  | hidden =>
      {| results := Some Pending;
         createDialogMode := createDialogMode st;
         assignEntitlementsDialog := assignEntitlementsDialog st;
         viewEntitlementsDialog := viewEntitlementsDialog st |}
  | shown => st
  end.

(** [onclick={() => (assignEntitlementsDialog = specialEvent.id)}] *)
Definition click_assign (ev : SpecialEvent) (st : State) : State :=
  {| results := results st;
     createDialogMode := createDialogMode st;
     assignEntitlementsDialog := Some (id ev);
     viewEntitlementsDialog := viewEntitlementsDialog st |}.

(** [onclick={() => (viewEntitlementsDialog = specialEvent.id)}] *)
Definition click_view (ev : SpecialEvent) (st : State) : State :=
  {| results := results st;
     createDialogMode := createDialogMode st;
     assignEntitlementsDialog := assignEntitlementsDialog st;
     viewEntitlementsDialog := Some (id ev) |}.

(** The setter of [bind:mode] on an assign dialog:
    [(mode) => { if (mode === "hidden") assignEntitlementsDialog = undefined; }] *)
Definition set_assign_mode (mode : DialogMode) (st : State) : State :=
  match mode with
  | hidden =>
      {| results := results st;
         createDialogMode := createDialogMode st;
         assignEntitlementsDialog := None;
         viewEntitlementsDialog := viewEntitlementsDialog st |}
  | shown => st
  end.

(** The setter of [bind:mode] on a view dialog. *)
Definition set_view_mode (mode : DialogMode) (st : State) : State :=
  match mode with
  | hidden =>
      {| results := results st;
         createDialogMode := createDialogMode st;
         assignEntitlementsDialog := assignEntitlementsDialog st;
         viewEntitlementsDialog := None |}
  | shown => st
  end.

Definition assign_shown (n : Node) : bool :=
  match n with
  | AssignEntitlementDialog shown _ _ => true
  | _ => false
  end.

Definition view_shown (n : Node) : bool :=
  match n with
  | ViewEntitlementDialog shown _ _ => true
  | _ => false
  end.

End SpecialEvents.

(** ** The settings page loader (routes/settings/+page.ts) *)

Module Settings.

(** [load] either returns or leaves through [redirect], which throws. *)
Inductive LoadResult : Type :=
| Returned
| Redirected (status : Z) (location : string).

(** [if (!get(user)) { redirect(303, "/sign-in?continue=/settings"); }]
    The argument is the current content of the [user] store. *)
Definition load (user : Js.value) : LoadResult :=
  if negb (Js.truthy user) then Redirected 303 "/sign-in?continue=/settings"
  else Returned.

End Settings.

(** ** The GraphQL client as the route loaders use it *)

Module Gql.
Import Js.

(** One call [gqlClient().query(document, variables, context)]: the name of
    the query document, the variables and the context's [requestPolicy]
    ([None] when the context does not set one). *)
Record Request := mkRequest {
  operation : string;
  variables : list (string * Js.value);
  requestPolicy : optional string;
}.

(** The result [toPromise()] resolves with: [res.error] and [res.data]. *)
Record OperationResult (D : Type) := mkResult {
  error : optional string;
  data : optional D;
}.
Global Arguments mkResult {D} error data.
Global Arguments error {D} _.
Global Arguments data {D} _.

(** What a loader reads and changes outside itself: the [defaultEmoteSet]
    store, the dependency keys registered with the router through
    [depends], and the operations handed to the client, oldest first. *)
Record World := mkWorld {
  defaultEmoteSet : optional string;
  dependencies : gset string;
  operations : list Request;
}.

(** Loaders are state transformers over the world. *)
Definition M (A : Type) : Type := World -> A * World.

Definition ret {A : Type} (a : A) : M A := fun w => (a, w).

Definition bind {A B : Type} (c : M A) (k : A -> M B) : M B :=
  fun w => let '(a, w') := c w in k a w'.

Definition exec {A : Type} (c : M A) (w : World) : World := snd (c w).

Definition eval {A : Type} (c : M A) (w : World) : A := fst (c w).

(** [depends(key)] *)
Definition depends (key : string) : M unit :=
  fun w => (tt, {| defaultEmoteSet := defaultEmoteSet w;
                   dependencies := {[key]} ∪ dependencies w;
                   operations := operations w |}).

(** [get(defaultEmoteSet)] *)
Definition get_defaultEmoteSet : M (optional string) :=
  fun w => (defaultEmoteSet w, w).

(** [gqlClient().query(document, variables, { fetch, requestPolicy }).toPromise()]:
    the operation is recorded and the promise is the one the client gives
    for it over the [fetch] of the load event. *)
Definition query {D : Type}
    (fetch : Request -> promise (OperationResult D) string)
    (document : string) (vars : list (string * Js.value))
    (policy : optional string) : M (promise (OperationResult D) string) :=
  fun w =>
    let r := mkRequest document vars policy in
    (fetch r, {| defaultEmoteSet := defaultEmoteSet w;
                 dependencies := dependencies w;
                 operations := operations w ++ [r] |}).

(** Whether a request asks for [requestPolicy: "network-only"]. *)
Definition network_only (r : Request) : bool :=
  bool_decide (requestPolicy r = Some "network-only").

(** Two requests are the same operation for the client when the query
    document and the variables are the same. *)
Definition same_operation (r1 r2 : Request) : bool :=
  bool_decide (operation r1 = operation r2)
  && bool_decide (variables r1 = variables r2).

(** One call of the client: the tick of the call, the request, and the
    tick at which the promise returned for it settles ([None]: never). *)
Record Call := mkCall {
  call_at : nat;
  call_request : Request;
  call_settles : option nat;
}.

(** Modelled from the spec: the client of [$/lib/gql], which the loaders
    call and which is not among the sources.  The spec gives it "no retry,
    no caching beyond the single in-flight request".  A request the client
    has sent is in flight from the tick of its call until the tick its
    promise settles. *)
Definition in_flight (now : nat) (c : Call) : bool :=
  (call_at c <=? now)%nat
  && match call_settles c with
     | Some t => (now <? t)%nat
     | None => true
     end.

(** Modelled from the spec: of the client of [$/lib/gql] (not among the
    sources), whether a call at tick [now] is served by a request still in
    flight among those sent so far, "the single in-flight request" of the
    spec. *)
Definition shares_in_flight (sent : list Call) (now : nat) (r : Request) : bool :=
  existsb (fun c => in_flight now c && same_operation (call_request c) r) sent.

(** Modelled from the spec: of the client of [$/lib/gql] (not among the
    sources), the calls that go out over the network, in order, given those
    sent before.  With "no caching beyond the single in-flight request" a
    call goes out unless it shares a request in flight. *)
Fixpoint client_fetches (sent : list Call) (calls : list Call) : list Call :=
  match calls with
  | [] => []
  | c :: rest =>
      if shares_in_flight sent (call_at c) (call_request c)
      then client_fetches sent rest
      else c :: client_fetches (sent ++ [c]) rest
  end.

End Gql.

Notation "'let*' x := c 'in' k" := (Gql.bind c (fun x => k))
  (at level 10, x name, c at level 100, k at level 200).

(** ** ProxyState *)

Module Proxy.
Import Js.

(** Modelled from the spec: the class [ProxyState] of [$/lib/proxy.svelte],
    which the user loader constructs and which is not among the sources.
    The spec gives its contract: it is "constructed with a pending request"
    and "exposes the eventual resolved value or propagates the rejection to
    the consumer".  The state holds the request it was constructed with. *)
Record ProxyState (A E : Type) := new_ProxyState {
  value : promise A E;
}.
Global Arguments new_ProxyState {A E} value.
Global Arguments value {A E} _.

(** What the consumer of a proxied request has in hand at one moment. *)
Inductive Exposed (A E : Type) : Type :=
| Waiting
| Resolved (v : A)
| Failed (reason : E).
Global Arguments Waiting {A E}.
Global Arguments Resolved {A E} v.
Global Arguments Failed {A E} reason.

(** Modelled from the spec: what a [ProxyState] exposes to its consumer at
    tick [now], nothing while the request is pending, then the resolved
    value or the rejection of the request. *)
Definition expose {A E : Type} (ps : ProxyState A E) (now : nat) : Exposed A E :=
  match poll (value ps) now with
  | Pending => Waiting
  | Settled (Fulfilled v) => Resolved v
  | Settled (Rejected e) => Failed e
  end.

(** What the consumer is owed for an outcome of the request. *)
Definition exposed_of {A E : Type} (o : settled A E) : Exposed A E :=
  match o with
  | Fulfilled v => Resolved v
  | Rejected e => Failed e
  end.

End Proxy.

(** ** The user route loader (routes/users/[id]/+layout.ts) *)

Module UserLayout.
Import Js Gql Proxy.

Record Role := mkRole {
  role_name : string;
  role_color : optional string;
}.

(** The user of the [OneUser] query, with the fields the loader touches. *)
Record User := mkUser {
  id : string;
  platformDisplayName : optional string;
  roles : list Role;
}.

(** [res.data]: [users.user] is [null] when no user has the id. *)
Record Data := mkData {
  user : nullable User;
}.

Record LayoutLoadEvent := mkEvent {
  fetch : Request -> promise (OperationResult Data) string;
  params_id : string;
}.

(** [{ id, streamed: { userRequest } }] *)
Record LoadOutput := mkOutput {
  out_id : string;
  userRequest : ProxyState User string;
}.

Section WithFilterRoles.

(** [filterRoles] of [$/lib/utils] is not among the sources. *)
Variable filterRoles : list Role -> list Role.

(** The callback given to [then]:
    [if (res.error || !res.data) throw "Failed to load user";]
    [if (!res.data.users.user) throw "User not found";]
    [res.data.users.user.roles = filterRoles(...); return res.data.users.user] *)
Definition on_result (res : OperationResult Data) : settled User string :=
  match error res, data res with
  | None, Some d =>
      match user d with
      | None => Rejected "User not found"
      | Some u =>
          Fulfilled {| id := id u;
                       platformDisplayName := platformDisplayName u;
                       roles := filterRoles (roles u) |}
      end
  | _, _ => Rejected "Failed to load user"
  end.

(** The variables of the query: [{ id: params.id }]. *)
Definition request_variables (ev : LayoutLoadEvent) : list (string * Js.value) :=
  [("id", VString (params_id ev))].

Definition load (ev : LayoutLoadEvent) : M LoadOutput :=
  let* res := query (fetch ev) "OneUser" (request_variables ev) None in
  let req := then_ res on_result in
  let state := new_ProxyState req in
  ret {| out_id := params_id ev; userRequest := state |}.

End WithFilterRoles.

End UserLayout.

(** ** The emote route loader *)

Module EmoteLayout.
Import Js Gql.

(** The emote of the [OneEmote] query, with some of its scalar fields. *)
Record Emote := mkEmote {
  id : string;
  defaultName : string;
  tags : list string;
  deleted : bool;
}.

(** [res.data]: [emotes.emote]. *)
Record Data := mkData {
  emote : nullable Emote;
}.

Record LayoutLoadEvent := mkEvent {
  fetch : Request -> promise (OperationResult Data) string;
  params_id : string;
}.

(** [{ id, streamed: { emote } }] *)
Record LoadOutput := mkOutput {
  out_id : string;
  streamed_emote : promise (optional (nullable Emote)) string;
}.

(** The callback given to [then]: [(res) => res.data?.emotes.emote as Emote].
    The cast is a compile-time assertion; at run time the value is
    [undefined] whenever [res.data] is. *)
Definition on_result (res : OperationResult Data)
  : settled (optional (nullable Emote)) string :=
  Fulfilled (emote <$> data res).

(** A store content as a JavaScript value. *)
Definition store_value (s : optional string) : Js.value :=
  match s with
  | Some v => VString v
  | None => VUndefined
  end.

(** [{ id: params.id, isDefaultSetSet: !!defaultSet, defaultSetId: defaultSet ?? "" }] *)
Definition request_variables (ev : LayoutLoadEvent) (defaultSet : optional string)
  : list (string * Js.value) :=
  [("id", VString (params_id ev));
   ("isDefaultSetSet", VBool (truthy (store_value defaultSet)));
   ("defaultSetId", VString (nullish_or defaultSet ""))].

(** The operation one load hands to the client. *)
Definition request_of (ev : LayoutLoadEvent) (defaultSet : optional string) : Request :=
  mkRequest "OneEmote" (request_variables ev defaultSet) (Some "network-only").

Definition load (ev : LayoutLoadEvent) : M LoadOutput :=
  let* _ := depends ("emotes:" +:+ params_id ev) in
  let* defaultSet := get_defaultEmoteSet in
  let* res := query (fetch ev) "OneEmote" (request_variables ev defaultSet)
                (Some "network-only") in
  let req := then_ res on_result in
  ret {| out_id := params_id ev; streamed_emote := req |}.

(** A sequence of loads, one per navigation, in order. *)
Fixpoint loads (evs : list LayoutLoadEvent) : M (list LoadOutput) :=
  match evs with
  | [] => ret []
  | ev :: rest =>
      let* out := load ev in
      let* outs := loads rest in
      ret (out :: outs)
  end.


(** The [id] variable of a request. *)
Definition request_id (r : Request) : optional string :=
  match List.find (fun kv => bool_decide (fst kv = "id")) (variables r) with
  | Some (_, VString i) => Some i
  | _ => None
  end.

(** The operations a step added to the log of the world. *)
Definition new_operations (before after : World) : list Request :=
  drop (length (operations before)) (operations after).

(** The calls the client receives when the router runs [load] for each
    visit in turn, a visit being the tick of the navigation and its load
    event: the requests each load adds to the log, stamped with the tick of
    the visit and with the tick at which the promise the load got for them
    settles. *)
Fixpoint calls (visits : list (nat * LayoutLoadEvent)) (w : World) : list Call :=
  match visits with
  | [] => []
  | (t, ev) :: rest =>
      map (fun r => mkCall t r (settle_tick (fetch ev r)))
          (new_operations w (exec (load ev) w))
      ++ calls rest (exec (load ev) w)
  end.

(** The fetches that go out over the network during the visits. *)
Definition session_fetches (visits : list (nat * LayoutLoadEvent)) (w : World)
  : list Call :=
  client_fetches [] (calls visits w).

(** The identity keys fetched over the network during the visits, oldest
    first. *)
Definition fetched_keys (visits : list (nat * LayoutLoadEvent)) (w : World)
  : list string :=
  omap (fun c => request_id (call_request c)) (session_fetches visits w).

(** A world in which nothing has been loaded yet. *)
Definition fresh (defaultSet : optional string) : World :=
  {| defaultEmoteSet := defaultSet; dependencies := ∅; operations := [] |}.

End EmoteLayout.

(** ** The ClickHouse activity tables *)

Module Activities.

Inductive ColumnType : Type :=
| UUID
| Nullable (t : ColumnType)
| Enum8 (codes : list (string * Z))
| DateTime64 (precision : Z).

Record Column := mkColumn {
  col_name : string;
  col_type : ColumnType;
  col_default : option string;
}.

(** [CREATE TABLE name (columns) ENGINE = engine ORDER BY (order_by)] *)
Record Table := mkTable {
  table_name : string;
  columns : list Column;
  engine : string;
  order_by : list string;
}.

Definition emote_activities : Table :=
  {| table_name := "emote_activities";
     columns :=
       [ mkColumn "emote_id" UUID None;
         mkColumn "actor_id" (Nullable UUID) None;
         mkColumn "kind"
           (Enum8 [("UPLOAD", 0); ("EDIT", 1); ("MERGE", 2); ("DELETE", 3)]%Z) None;
         mkColumn "timestamp" (DateTime64 9) (Some "NOW()") ];
     engine := "MergeTree";
     order_by := ["emote_id"; "kind"; "timestamp"] |}.

Definition emote_set_activities : Table :=
  {| table_name := "emote_set_activities";
     columns :=
       [ mkColumn "emote_set_id" UUID None;
         mkColumn "actor_id" (Nullable UUID) None;
         mkColumn "kind"
           (Enum8 [("CREATE", 0); ("EDIT", 1); ("DELETE", 2)]%Z) None;
         mkColumn "timestamp" (DateTime64 9) (Some "NOW()") ];
     engine := "MergeTree";
     order_by := ["emote_set_id"; "kind"; "timestamp"] |}.

Definition user_activities : Table :=
  {| table_name := "user_activities";
     columns :=
       [ mkColumn "user_id" UUID None;
         mkColumn "actor_id" (Nullable UUID) None;
         mkColumn "kind"
           (Enum8 [("REGISTER", 0); ("LOGIN", 1); ("LOGOUT", 2); ("EDIT", 3);
                   ("DELETE", 4); ("MERGE", 5); ("BAN", 6); ("UNBAN", 7)]%Z) None;
         mkColumn "timestamp" (DateTime64 9) (Some "NOW()") ];
     engine := "MergeTree";
     order_by := ["user_id"; "kind"; "timestamp"] |}.

(** The schema: the three tables in the order they are created. *)
Definition schema : list Table :=
  [emote_activities; emote_set_activities; user_activities].

Definition find_table (n : string) : option Table :=
  List.find (fun t => bool_decide (table_name t = n)) schema.

Definition find_column (t : Table) (n : string) : option Column :=
  List.find (fun c => bool_decide (col_name c = n)) (columns t).

(** The codes of the table's [kind] column, in declaration order. *)
Definition kind_codes (t : Table) : list (string * Z) :=
  match col_type <$> find_column t "kind" with
  | Some (Enum8 codes) => codes
  | _ => []
  end.

(** The code a kind is stored as. *)
Definition kind_code (t : Table) (kind : string) : option Z :=
  snd <$> List.find (fun kc => bool_decide (fst kc = kind)) (kind_codes t).

(** The column naming the entity an activity is about: the first column. *)
Definition entity_column (t : Table) : option string :=
  col_name <$> head (columns t).

(** The kind a code stands for. *)
Definition kind_name (t : Table) (code : Z) : option string :=
  fst <$> List.find (fun kc => bool_decide (snd kc = code)) (kind_codes t).

Definition column_names (t : Table) : list string := map col_name (columns t).

End Activities.

(** ** The image-processor manifest (image-processor.yaml) *)

Module ImageProcessor.

(** A port given by number or by the name of a container port. *)
Inductive PortRef : Type :=
| PortNumber (n : Z)
| PortName (name : string).

Record ContainerPort := mkContainerPort {
  containerPort : Z;
  cp_name : string;
}.

(** The handler of a probe, with the kinds the orchestrator offers. *)
Inductive Handler : Type :=
| httpGet (port : PortRef) (path : string)
| tcpSocket (port : PortRef)
| exec (command : list string)
| grpc (port : Z).

Record Probe := mkProbe {
  handler : Handler;
}.

Record Container := mkContainer {
  c_name : string;
  image : string;
  imagePullPolicy : string;
  args : list string;
  livenessProbe : option Probe;
  readinessProbe : option Probe;
  ports : list ContainerPort;
}.

Record Deployment := mkDeployment {
  d_name : string;
  d_namespace : string;
  d_labels : list (string * string);
  matchLabels : list (string * string);
  template_labels : list (string * string);
  containers : list Container;
}.

Record ServicePort := mkServicePort {
  sp_name : string;
  port : Z;
  targetPort : PortRef;
}.

Record Service := mkService {
  s_name : string;
  s_namespace : string;
  s_labels : list (string * string);
  selector : list (string * string);
  s_ports : list ServicePort;
}.

Definition image_processor_container : Container :=
  {| c_name := "image-processor";
     image := "ghcr.io/seventv/image-processor:latest";
     imagePullPolicy := "Always";
     args := ["--config=/app/config.toml"];
     livenessProbe := Some (mkProbe (httpGet (PortName "metrics") "/health"));
     readinessProbe := Some (mkProbe (httpGet (PortName "metrics") "/health"));
     ports := [ mkContainerPort 50051 "grpc"; mkContainerPort 9000 "metrics" ] |}.

Definition deployment : Deployment :=
  {| d_name := "image-processor";
     d_namespace := "app";
     d_labels := [("app", "image-processor")];
     matchLabels := [("app", "image-processor")];
     template_labels := [("app", "image-processor")];
     containers := [image_processor_container] |}.

Definition service : Service :=
  {| s_name := "image-processor";
     s_namespace := "app";
     s_labels := [("app", "image-processor")];
     selector := [("app", "image-processor")];
     s_ports := [ mkServicePort "grpc" 50051 (PortName "grpc");
                  mkServicePort "metrics" 9000 (PortNumber 9000) ] |}.

(** The number behind a port reference in a container: a name stands for
    the container port declared under it. *)
Definition resolve_port (c : Container) (r : PortRef) : option Z :=
  match r with
  | PortNumber n => Some n
  | PortName nm =>
      containerPort <$> List.find (fun p => bool_decide (cp_name p = nm)) (ports c)
  end.

Definition container_port_named (c : Container) (nm : string) : option Z :=
  resolve_port c (PortName nm).

Definition service_port_named (s : Service) (nm : string) : option ServicePort :=
  List.find (fun p => bool_decide (sp_name p = nm)) (s_ports s).

(** Where an HTTP GET probe is sent: the resolved port and the path. *)
Definition probe_endpoint (c : Container) (p : option Probe) : option (Z * string) :=
  match p with
  | Some {| handler := httpGet r path |} =>
      (fun n => (n, path)) <$> resolve_port c r
  | _ => None
  end.

Definition is_http_get (p : option Probe) : bool :=
  match p with
  | Some {| handler := httpGet _ _ |} => true
  | _ => false
  end.

(** A label selector selects what carries each of its labels. *)
Definition selects (sel labels : list (string * string)) : bool :=
  forallb (fun kv => bool_decide (kv ∈ labels)) sel.

(** A service sends traffic to the pods of a deployment in its namespace
    whose template labels its selector selects. *)
Definition routes_to (s : Service) (d : Deployment) : bool :=
  bool_decide (s_namespace s = d_namespace d)
  && selects (selector s) (template_labels d).

End ImageProcessor.

(** ** The theme variables (styles/variables.scss) *)

Module Theme.

(** [@mixin dark-theme] *)
Definition dark_theme : list (string * string) :=
  [ ("--secondary", "#222222"); ("--secondary-text", "#ffffff");
    ("--secondary-hover", "#252525"); ("--secondary-active", "#383838");
    ("--secondary-disabled", "#202020"); ("--secondary-border", "transparent");
    ("--primary", "white"); ("--primary-text", "black");
    ("--primary-hover", "#f3f3f3"); ("--primary-active", "#e0e0e0");
    ("--primary-disabled", "#bbbbbb"); ("--primary-border", "transparent");
    ("--bg-dark", "#0a0a0a"); ("--bg-medium", "#0f0f0f"); ("--bg-light", "#141414");
    ("--text", "#ffffff"); ("--text-light", "#9c9c9c");
    ("--layout-border", "transparent"); ("--border-active", "#313131");
    ("--store", "#aa71ff");
    ("--preview", "#222222") ].

(** [@mixin light-theme] *)
Definition light_theme : list (string * string) :=
  [ ("--secondary", "#ffffff"); ("--secondary-text", "#000000");
    ("--secondary-hover", "#f9f9f9"); ("--secondary-active", "#ffffff");
    ("--secondary-disabled", "#ffffff"); ("--secondary-border", "#d0d5dd");
    ("--primary", "#000000"); ("--primary-text", "#ffffff");
    ("--primary-hover", "#000000"); ("--primary-active", "#000000");
    ("--primary-disabled", "#000000"); ("--primary-border", "transparent");
    ("--bg-dark", "rgb(249 250 251)"); ("--bg-medium", "rgb(243 244 246)");
    ("--bg-light", "rgb(229 231 235)");
    ("--text", "#000000"); ("--text-light", "#344054");
    ("--layout-border", "#f2f4f7"); ("--border-active", "#d0d5dd");
    ("--store", "#8b3dff");
    ("--preview", "#dddddd") ].

(** The declarations of [:root] after the include. *)
Definition root_fixed : list (string * string) :=
  [ ("--danger", "#f6412d"); ("--approve", "#57ab5a"); ("--rename", "#3b82f6");
    ("--staff", "#ee4865"); ("--staff-bg", "#ee48651a");
    ("--admin-merge", "#b083f0"); ("--admin-unlist", "#e0823d") ].

Inductive Selector : Type :=
| html
| root
| class (c : string).

(** One rule of the sheet: whether it sits inside
    [@media (prefers-color-scheme: light)], its selector and its
    declarations in order, includes expanded in place. *)
Record Rule := mkRule {
  light_media : bool;
  selector : Selector;
  declarations : list (string * string);
}.

(** The rules in source order. *)
Definition stylesheet : list Rule :=
  [ mkRule false html [("color-scheme", "dark light")];
    mkRule false root (dark_theme ++ root_fixed);
    mkRule true root light_theme;
    mkRule false (class "dark-theme") (("color-scheme", "dark") :: dark_theme);
    mkRule false (class "light-theme") (("color-scheme", "light") :: light_theme) ].

(** An element as the selectors of the sheet see it. *)
Record Element := mkElement {
  is_root : bool;
  classes : list string;
}.

(** Specificity: a type selector is below a class or a pseudo-class. *)
Definition specificity (sel : Selector) : nat :=
  match sel with
  | html => 1
  | root => 10
  | class _ => 10
  end.

Definition matches (prefers_light : bool) (is_root_el : bool)
    (has_class : string -> bool) (r : Rule) : bool :=
  implb (light_media r) prefers_light
  && match selector r with
     | html => is_root_el
     | root => is_root_el
     | class c => has_class c
     end.

(** The value a rule declares for a property: the last declaration of it. *)
Definition declared (r : Rule) (prop : string) : option string :=
  snd <$> List.find (fun d => bool_decide (fst d = prop)) (rev (declarations r)).

(** One step of the cascade: a matching rule that declares the property
    wins over what was found so far unless its specificity is lower. *)
Definition cascade_step (prefers_light : bool) (is_root_el : bool)
    (has_class : string -> bool) (prop : string)
    (acc : option (nat * string)) (r : Rule) : option (nat * string) :=
  if matches prefers_light is_root_el has_class r then
    match declared r prop with
    | Some v =>
        match acc with
        | Some (s, _) =>
            if (s <=? specificity (selector r))%nat
            then Some (specificity (selector r), v) else acc
        | None => Some (specificity (selector r), v)
        end
    | None => acc
    end
  else acc.

Definition cascade (sheet : list Rule) (prefers_light : bool) (is_root_el : bool)
    (has_class : string -> bool) (prop : string) : option string :=
  snd <$> fold_left (cascade_step prefers_light is_root_el has_class prop) sheet None.

(** The value the sheet sets for a property on an element itself (what is
    inherited from ancestors aside), under the user's colour-scheme
    preference. *)
Definition cascaded (prefers_light : bool) (el : Element) (prop : string)
  : option string :=
  cascade stylesheet prefers_light (is_root el)
          (fun c => bool_decide (c ∈ classes el)) prop.

(** The value a list of declarations gives a property. *)
Definition value_in (decls : list (string * string)) (prop : string) : option string :=
  snd <$> List.find (fun d => bool_decide (fst d = prop)) decls.

End Theme.

(** * Properties *)

Section SelectProperties.
Import Js Select.

Lemma selected_default_cons (o : Option) (rest : list Option) :
  selected_default (o :: rest) = Some (value o).
Proof. reflexivity. Qed.

Lemma selectedLabel_nil (sel : optional string) : selectedLabel [] sel = None.
Proof. reflexivity. Qed.

(** Whatever is selected by default is an option of the list, so a
    non-empty list never starts on the fallback label. *)
Lemma selectedLabel_default (o : Option) (rest : list Option) :
  selectedLabel (o :: rest) (selected_default (o :: rest)) = Some o.
Proof.
  unfold selectedLabel; cbn.
  rewrite bool_decide_eq_true_2; reflexivity.
Qed.

End SelectProperties.

(** C9: with no [selected] bound by the caller, the Select starts on
    [options[0].value] for every non-empty option list and on [undefined]
    for the empty list, where the button shows the fallback label
    [labels.select] instead of an option label. *)
Theorem select_initial_selected :
  (forall (o : Select.Option) (rest : list Select.Option) (g d : bool),
      Select.selected (Select.init (Select.mkProps (o :: rest) None g d))
      = Some (Select.value o))
  /\ (forall g d : bool,
        Select.selected (Select.init (Select.mkProps [] None g d)) = None
        /\ Select.button_content []
             (Select.selected (Select.init (Select.mkProps [] None g d)))
           = [Select.Translate "labels.select"]).
Proof.
  split.
  - intros o rest g d. cbn [Select.init Select.selected Select.selected_prop Select.options].
    apply selected_default_cons.
  - intros g d. split; reflexivity.
Qed.

(** C10: after [select(option)] the selected state is that option's value
    and [expanded] is false, so the dropdown is no longer rendered. *)
Theorem select_sets_selected_and_closes :
  forall (option : string) (st : Select.State),
    Select.selected (Select.select option st) = Some option
    /\ Select.expanded (Select.select option st) = false
    /\ (forall opts : list Select.Option,
          Select.dropdown opts (Select.select option st) = []).
Proof.
  intros option st. repeat split.
Qed.

Section SpecialEventsProperties.
Import Js SpecialEvents.

Lemma existsb_event_row_each (st : State) (ev : SpecialEvent) (rest : list Node) :
  existsb is_event_row (each_event st ev ++ rest) = true.
Proof. cbn. reflexivity. Qed.

Lemma existsb_empty_state_each (st : State) (evs : list SpecialEvent) :
  existsb is_empty_state (flat_map (each_event st) evs) = false.
Proof.
  induction evs as [|ev evs IH]; [reflexivity|].
  cbn [flat_map]. rewrite existsb_app, IH. reflexivity.
Qed.

Lemma then_block_event_rows (st : State) (res : optional (list SpecialEvent)) :
  existsb is_event_row (then_block st res)
  = match res with
    | Some (_ :: _) => true
    | _ => false
    end.
Proof.
  destruct res as [[|ev evs]|]; reflexivity.
Qed.

(** With a non-empty resolved list the empty state is not rendered. *)
Lemma then_block_no_empty_state (st : State) (ev : SpecialEvent)
    (evs : list SpecialEvent) :
  existsb is_empty_state (then_block st (Some (ev :: evs))) = false.
Proof.
  unfold then_block. cbn [length Nat.ltb Nat.leb].
  apply existsb_empty_state_each.
Qed.

End SpecialEventsProperties.

(** C6: once the special-events query has resolved with the empty list the
    table body is the single "No Special Events" row, with no result row;
    and in every page state the body holds a result row exactly when the
    query has resolved with a non-empty list. *)
Theorem special_events_empty_state :
  (forall st : SpecialEvents.State,
      SpecialEvents.tbody (SpecialEvents.resolved_with st (Some []))
      = [SpecialEvents.MessageRow "No Special Events"])
  /\ (forall st : SpecialEvents.State,
        existsb SpecialEvents.is_event_row (SpecialEvents.tbody st)
        = match SpecialEvents.results st with
          | Some (Js.Settled (Js.Fulfilled (Some (_ :: _)))) => true
          | _ => false
          end).
Proof.
  split.
  - intros st. reflexivity.
  - intros [r c a v]. unfold SpecialEvents.tbody. cbn [SpecialEvents.results].
    destruct r as [[|[res|e]]|]; try reflexivity.
    rewrite then_block_event_rows. destruct res as [[|? ?]|]; reflexivity.
Qed.

(** C8: the settings loader redirects with status 303 to
    "/sign-in?continue=/settings" exactly when the user store holds a falsy
    value, and returns without redirecting exactly when it holds a truthy
    one. *)
Theorem settings_load_redirects_iff_falsy :
  forall user : Js.value,
    (Settings.load user = Settings.Redirected 303 "/sign-in?continue=/settings"
     <-> Js.truthy user = false)
    /\ (Settings.load user = Settings.Returned <-> Js.truthy user = true).
Proof.
  intros user. unfold Settings.load.
  destruct (Js.truthy user); cbn; repeat split; intros; congruence.
Qed.

Section LoaderProperties.
Import Js Gql.

Lemma then_settles_with {A B E : Type} (t : nat) (v : A) (cb : A -> settled B E) :
  then_ (SettlesAt t (Fulfilled v)) cb = SettlesAt t (cb v).
Proof. reflexivity. Qed.

(** The user loader: the proxied request is the client's promise followed
    by the callback. *)
Lemma user_load_request (filterRoles : list UserLayout.Role -> list UserLayout.Role)
    (ev : UserLayout.LayoutLoadEvent) (w : World) :
  Proxy.value (UserLayout.userRequest (eval (UserLayout.load filterRoles ev) w))
  = then_ (UserLayout.fetch ev
             (mkRequest "OneUser" (UserLayout.request_variables ev) None))
          (UserLayout.on_result filterRoles).
Proof. reflexivity. Qed.

(** An error or missing data rejects the user request with the generic
    text, a null user with the not-found text. *)
Lemma user_on_result_failed (filterRoles : list UserLayout.Role -> list UserLayout.Role)
    (res : OperationResult UserLayout.Data) :
  is_Some (error res) \/ data res = None ->
  UserLayout.on_result filterRoles res = Rejected "Failed to load user".
Proof.
  unfold UserLayout.on_result.
  intros [[e He] | Hd].
  - rewrite He. reflexivity.
  - rewrite Hd. destruct (error res); reflexivity.
Qed.

Lemma user_on_result_not_found (filterRoles : list UserLayout.Role -> list UserLayout.Role)
    (res : OperationResult UserLayout.Data) :
  error res = None -> data res = Some (UserLayout.mkData None) ->
  UserLayout.on_result filterRoles res = Rejected "User not found".
Proof.
  unfold UserLayout.on_result. intros -> ->. reflexivity.
Qed.

(** The user loader hands one operation to the client per load, under the
    client's default request policy. *)
Lemma user_load_operations (filterRoles : list UserLayout.Role -> list UserLayout.Role)
    (ev : UserLayout.LayoutLoadEvent) (w : World) :
  operations (exec (UserLayout.load filterRoles ev) w)
  = operations w ++ [mkRequest "OneUser" (UserLayout.request_variables ev) None].
Proof. reflexivity. Qed.

Lemma emote_load_exec (ev : EmoteLayout.LayoutLoadEvent) (w : World) :
  exec (EmoteLayout.load ev) w
  = {| defaultEmoteSet := defaultEmoteSet w;
       dependencies := {[ "emotes:" +:+ EmoteLayout.params_id ev ]} ∪ dependencies w;
       operations := operations w ++ [EmoteLayout.request_of ev (defaultEmoteSet w)] |}.
Proof. reflexivity. Qed.

Lemma emote_request_network_only (ev : EmoteLayout.LayoutLoadEvent) (d : optional string) :
  network_only (EmoteLayout.request_of ev d) = true.
Proof. reflexivity. Qed.

Lemma emote_loads_cons (ev : EmoteLayout.LayoutLoadEvent)
    (rest : list EmoteLayout.LayoutLoadEvent) (w : World) :
  exec (EmoteLayout.loads (ev :: rest)) w
  = exec (EmoteLayout.loads rest) (exec (EmoteLayout.load ev) w).
Proof.
  unfold exec. cbn [EmoteLayout.loads]. unfold bind, ret.
  destruct (EmoteLayout.load ev w) as [out w1]. cbn [snd].
  destruct (EmoteLayout.loads rest w1) as [outs w2]. reflexivity.
Qed.

End LoaderProperties.

Lemma emote_request_id (ev : EmoteLayout.LayoutLoadEvent) (d : Js.optional string) :
  EmoteLayout.request_id (EmoteLayout.request_of ev d) = Some (EmoteLayout.params_id ev).
Proof. reflexivity. Qed.

(** C1: the emote loader does not reject on a failed query.  Whatever result
    the client resolves with, the streamed promise is fulfilled with
    [res.data?.emotes.emote]; for a result with an error and no data it is
    fulfilled with [undefined]. *)
Theorem emote_load_resolves_undefined_on_error :
  (forall (t : nat) (res : Gql.OperationResult EmoteLayout.Data) (id : string)
          (w : Gql.World),
      EmoteLayout.streamed_emote
        (Gql.eval (EmoteLayout.load
                     (EmoteLayout.mkEvent (fun _ => Js.SettlesAt t (Js.Fulfilled res)) id)) w)
      = Js.SettlesAt t (Js.Fulfilled (EmoteLayout.emote <$> Gql.data res)))
  /\ (forall (t : nat) (err : Js.optional string) (id : string) (w : Gql.World),
        EmoteLayout.streamed_emote
          (Gql.eval (EmoteLayout.load
                       (EmoteLayout.mkEvent
                          (fun _ => Js.SettlesAt t (Js.Fulfilled (Gql.mkResult err None))) id)) w)
        = Js.SettlesAt t (Js.Fulfilled None)).
Proof.
  split; intros; reflexivity.
Qed.

Section EmoteFetches.
Import Js Gql.



End EmoteFetches.



(** While the request of the first load is still in flight, a second load
    of the same key shares it and no second fetch goes out. *)
Lemma emote_in_flight_load_shares :
  EmoteLayout.fetched_keys
    [(0%nat, EmoteLayout.mkEvent (fun _ => Js.Never) "e1");
     (5%nat, EmoteLayout.mkEvent (fun _ => Js.Never) "e1")]
    (EmoteLayout.fresh None)
  = ["e1"].
Proof.
  vm_compute. reflexivity.
Qed.

(** C3: a ProxyState constructed with a request exposes to its consumer
    what the request eventually settles with: the value it resolves with,
    or the rejection itself, from the moment it settles on. *)
Theorem proxy_state_exposes_outcome :
  forall (A E : Type) (p : Js.promise A E) (o : Js.settled A E),
    Js.eventually_settles p o ->
    exists t : nat, forall now : nat, (t <= now)%nat ->
      Proxy.expose (Proxy.new_ProxyState p) now = Proxy.exposed_of o.
Proof.
  intros A E p o [t Ht]. exists t. intros now Hle.
  unfold Proxy.expose. cbn [Proxy.value]. rewrite (Ht now Hle).
  destruct o; reflexivity.
Qed.

Lemma proxy_state_exposes_outcome_witness :
  Js.eventually_settles (Js.SettlesAt 2 (@Js.Rejected nat string "User not found"))
                        (Js.Rejected "User not found")
  /\ exists t : nat, forall now : nat, (t <= now)%nat ->
       Proxy.expose
         (Proxy.new_ProxyState (Js.SettlesAt 2 (@Js.Rejected nat string "User not found")))
         now
       = Proxy.Failed "User not found".
Proof.
  assert (H : Js.eventually_settles
                (Js.SettlesAt 2 (@Js.Rejected nat string "User not found"))
                (Js.Rejected "User not found")).
  { exists 2%nat. intros now Hle. unfold Js.poll.
    destruct (Nat.leb_spec 2 now); [reflexivity | lia]. }
  split; [exact H|].
  exact (proxy_state_exposes_outcome nat string _ _ H).
Defined.

(** C4: the kind codes of the three activity tables are exactly
    UPLOAD=0, EDIT=1, MERGE=2, DELETE=3 for emote_activities,
    CREATE=0, EDIT=1, DELETE=2 for emote_set_activities and
    REGISTER=0 .. UNBAN=7 for user_activities, and each table is ordered by
    its entity id column, then kind, then timestamp. *)
Theorem activity_tables_kind_codes :
  Activities.kind_codes Activities.emote_activities
  = [("UPLOAD", 0); ("EDIT", 1); ("MERGE", 2); ("DELETE", 3)]%Z
  /\ Activities.kind_codes Activities.emote_set_activities
     = [("CREATE", 0); ("EDIT", 1); ("DELETE", 2)]%Z
  /\ Activities.kind_codes Activities.user_activities
     = [("REGISTER", 0); ("LOGIN", 1); ("LOGOUT", 2); ("EDIT", 3);
        ("DELETE", 4); ("MERGE", 5); ("BAN", 6); ("UNBAN", 7)]%Z
  /\ Forall (fun t =>
               exists e : string,
                 Activities.entity_column t = Some e
                 /\ Activities.order_by t = [e; "kind"; "timestamp"])
            Activities.schema
  /\ map Activities.entity_column Activities.schema
     = [Some "emote_id"; Some "emote_set_id"; Some "user_id"].
Proof.
  repeat split; try reflexivity.
  unfold Activities.schema.
  repeat constructor; eexists; split; reflexivity.
Qed.

(** C5: the image-processor container and service expose gRPC on port
    50051 and metrics on port 9000, and both probes ask for /health on the
    metrics port, 9000. *)
Theorem image_processor_ports :
  ImageProcessor.containers ImageProcessor.deployment
  = [ImageProcessor.image_processor_container]
  /\ ImageProcessor.container_port_named ImageProcessor.image_processor_container "grpc"
     = Some 50051%Z
  /\ ImageProcessor.container_port_named ImageProcessor.image_processor_container "metrics"
     = Some 9000%Z
  /\ ImageProcessor.service_port_named ImageProcessor.service "grpc"
     = Some (ImageProcessor.mkServicePort "grpc" 50051 (ImageProcessor.PortName "grpc"))
  /\ ImageProcessor.service_port_named ImageProcessor.service "metrics"
     = Some (ImageProcessor.mkServicePort "metrics" 9000 (ImageProcessor.PortNumber 9000))
  /\ map (fun p => ImageProcessor.resolve_port ImageProcessor.image_processor_container
                     (ImageProcessor.targetPort p))
         (ImageProcessor.s_ports ImageProcessor.service)
     = [Some 50051%Z; Some 9000%Z]
  /\ ImageProcessor.probe_endpoint ImageProcessor.image_processor_container
       (ImageProcessor.livenessProbe ImageProcessor.image_processor_container)
     = Some (9000%Z, "/health")
  /\ ImageProcessor.probe_endpoint ImageProcessor.image_processor_container
       (ImageProcessor.readinessProbe ImageProcessor.image_processor_container)
     = Some (9000%Z, "/health").
Proof.
  repeat split; reflexivity.
Qed.

(** C7: the image-processor container declares both a livenessProbe and a
    readinessProbe, and each is an HTTP GET check. *)
Theorem image_processor_probes_http_get :
  Forall (fun c =>
            ImageProcessor.is_http_get (ImageProcessor.livenessProbe c) = true
            /\ ImageProcessor.is_http_get (ImageProcessor.readinessProbe c) = true)
         (ImageProcessor.containers ImageProcessor.deployment)
  /\ ImageProcessor.containers ImageProcessor.deployment <> [].
Proof.
  split.
  - repeat constructor.
  - discriminate.
Qed.

(** * Further properties of the sources *)

Section SelectBehaviour.
Import Js Select.

Lemma selectedLabel_Some (opts : list Option) (sel : optional string) (o : Option) :
  selectedLabel opts sel = Some o -> In o opts /\ sel = Some (value o).
Proof.
  unfold selectedLabel. intros H. apply List.find_some in H as [Hin Heq].
  split; [exact Hin|].
  destruct sel as [s|]; cbn in Heq; [|discriminate].
  apply bool_decide_eq_true_1 in Heq. congruence.
Qed.

Lemma selectedLabel_None (opts : list Option) (sel : optional string) :
  selectedLabel opts sel = None <-> (forall o, In o opts -> sel <> Some (value o)).
Proof.
  unfold selectedLabel. split.
  - intros H o Hin Hsel. pose proof (List.find_none _ _ H o Hin) as Hf.
    subst sel. cbn in Hf. rewrite bool_decide_eq_true_2 in Hf by reflexivity.
    discriminate.
  - intros H. destruct (List.find _ opts) as [o|] eqn:Hfind; [|reflexivity].
    apply List.find_some in Hfind as [Hin Heq].
    destruct sel as [s|]; cbn in Heq; [|discriminate].
    apply bool_decide_eq_true_1 in Heq. exfalso. apply (H o Hin). congruence.
Qed.

Lemma option_content_not_fallback (o : Option) :
  render_icon (icon o) ++ [Text (label o)] <> [Translate "labels.select"].
Proof. destruct (icon o); cbn; discriminate. Qed.

Lemma selectedLabel_unique (opts : list Option) (o : Option) :
  NoDup (map value opts) -> In o opts ->
  selectedLabel opts (Some (value o)) = Some o.
Proof.
  unfold selectedLabel. induction opts as [|a l IH]; intros Hnd Hin; [destruct Hin|].
  cbn [map] in Hnd. apply NoDup_cons in Hnd as [Hna Hnd].
  cbn [List.find strict_eq]. destruct (bool_decide (value a = value o)) eqn:Hd.
  - apply bool_decide_eq_true_1 in Hd. destruct Hin as [->|Hin]; [reflexivity|].
    exfalso. apply Hna. rewrite Hd. apply list_elem_of_In, in_map, Hin.
  - apply bool_decide_eq_false_1 in Hd. destruct Hin as [->|Hin]; [congruence|].
    apply IH; assumption.
Qed.

Lemma dropped_handlers_expanded (opts : list Option) (st : State) :
  dropped_handlers opts st
  = if expanded st then map (fun o => OnSelect (value o)) opts else [].
Proof.
  unfold dropped_handlers, dropdown. destruct (expanded st); [|reflexivity].
  cbn [flat_map]. rewrite app_nil_r. unfold button_handlers.
  induction opts as [|o l IH]; [reflexivity|].
  cbn [map]. change (omap ?f (?x :: ?xs)) with
    (match f x with Some y => y :: omap f xs | None => omap f xs end).
  cbn beta iota. rewrite IH. reflexivity.
Qed.

Lemma button_content_fallback (opts : list Option) (sel : optional string) :
  button_content opts sel = [Translate "labels.select"]
  <-> selectedLabel opts sel = None.
Proof.
  unfold button_content.
  destruct (selectedLabel opts sel) as [o|]; split; intros H;
    try reflexivity; try discriminate.
  exfalso. exact (option_content_not_fallback o H).
Qed.

Lemma run_cons (e : Event) (es : list Event) (st : State) :
  run (e :: es) st = run es (step st e).
Proof. reflexivity. Qed.

Lemma run_snoc (es : list Event) (e : Event) (st : State) :
  run (es ++ [e]) st = step (run es st) e.
Proof. unfold run. rewrite fold_left_app. reflexivity. Qed.

End SelectBehaviour.

(** X1: after any sequence of events the selected value is the one written
    by the last choice in the sequence (a click on a dropped button or a
    change of the native select), and the initial one if there was none. *)
Theorem select_run_selected :
  forall (es : list Select.Event) (st : Select.State),
    Select.selected (Select.run es st)
    = match last (omap Select.chosen es) with
      | Some v => Some v
      | None => Select.selected st
      end.
Proof.
  intros es. induction es as [|e es IH] using rev_ind; intros st; [reflexivity|].
  rewrite run_snoc, omap_app.
  destruct e as [[|v]| |v|w]; cbn [omap list_omap Select.chosen Select.step Select.handle
    Select.toggle Select.close Select.select Select.selected];
    rewrite ?app_nil_r, ?last_snoc; try apply IH; reflexivity.
Qed.

(** X2: toggling [n] times brings the component back to where it was when
    [n] is even and to the toggled state when [n] is odd; neither the
    selection nor the width is touched. *)
Theorem select_toggle_parity :
  forall (n : nat) (st : Select.State),
    Select.run (replicate n (Select.Fire Select.OnToggle)) st
    = if Nat.even n then st else Select.toggle st.
Proof.
  assert (Hinv : forall st, Select.toggle (Select.toggle st) = st).
  { intros [s e w]. unfold Select.toggle. cbn. rewrite negb_involutive. reflexivity. }
  intros n. induction n as [|n IH]; intros st; [reflexivity|].
  cbn [replicate]. rewrite run_cons, IH. cbn [Select.step Select.handle].
  rewrite Nat.even_succ, <- Nat.negb_even, Hinv.
  destruct (Nat.even n); reflexivity.
Qed.

(** X3: the button shows the fallback label exactly when no option carries
    the selected value; this covers an unset selection and a bound value
    that is not among the options. *)
Theorem select_fallback_iff_no_option :
  forall (opts : list Select.Option) (sel : Js.optional string),
    Select.button_content opts sel = [Select.Translate "labels.select"]
    <-> (forall o, In o opts -> sel <> Some (Select.value o)).
Proof.
  intros opts sel. rewrite button_content_fallback. apply selectedLabel_None.
Qed.

(** X4: when the option values are pairwise distinct, choosing an option of
    the list makes the button show that option's icon and label. *)
Theorem select_shows_chosen_option :
  forall (opts : list Select.Option) (o : Select.Option) (st : Select.State),
    NoDup (map Select.value opts) -> In o opts ->
    Select.button_content opts
      (Select.selected (Select.select (Select.value o) st))
    = Select.render_icon (Select.icon o) ++ [Select.Text (Select.label o)].
Proof.
  intros opts o st Hnd Hin. unfold Select.button_content.
  cbn [Select.select Select.selected].
  rewrite (selectedLabel_unique opts o Hnd Hin). reflexivity.
Qed.

Lemma select_shows_chosen_option_witness :
  Select.button_content
    [Select.mkOption "a" "Alpha" None; Select.mkOption "b" "Beta" None]
    (Select.selected
       (Select.select "b" (Select.mkState None true None)))
  = [Select.Text "Beta"].
Proof.
  apply (select_shows_chosen_option
           [Select.mkOption "a" "Alpha" None; Select.mkOption "b" "Beta" None]
           (Select.mkOption "b" "Beta" None) (Select.mkState None true None)).
  - apply (bool_decide_unpack (NoDup ["a"; "b"])). reflexivity.
  - cbn. right. left. reflexivity.
Defined.

(** X5: every button of the dropped list as rendered selects the value of
    some option, so a click on any of them closes the list and leaves the
    button on an option label, never on the fallback label. *)
Theorem select_dropped_click_shows_option :
  forall (opts : list Select.Option) (st : Select.State) (h : Select.Handler),
    In h (Select.dropped_handlers opts st) ->
    Select.expanded (Select.handle h st) = false
    /\ Select.button_content opts (Select.selected (Select.handle h st))
       <> [Select.Translate "labels.select"].
Proof.
  intros opts st h Hin. rewrite dropped_handlers_expanded in Hin.
  destruct (Select.expanded st); [|destruct Hin].
  apply in_map_iff in Hin as [o [<- Ho]]. split; [reflexivity|].
  rewrite button_content_fallback, selectedLabel_None. intros Hall.
  apply (Hall o Ho). reflexivity.
Qed.

Lemma select_dropped_click_shows_option_witness :
  Select.expanded
    (Select.handle (Select.OnSelect "a") (Select.mkState None true None)) = false
  /\ Select.button_content [Select.mkOption "a" "Alpha" None]
       (Select.selected
          (Select.handle (Select.OnSelect "a") (Select.mkState None true None)))
     <> [Select.Translate "labels.select"].
Proof.
  apply (select_dropped_click_shows_option
           [Select.mkOption "a" "Alpha" None] (Select.mkState None true None)
           (Select.OnSelect "a")).
  cbn. left. reflexivity.
Defined.

Section SpecialEventsBehaviour.
Import Js SpecialEvents.

Lemma filter_rows_each (st : State) (evs : list SpecialEvent) :
  List.filter is_event_row (flat_map (each_event st) evs) = map row_of evs.
Proof.
  induction evs as [|ev evs IH]; [reflexivity|].
  cbn [flat_map map]. rewrite List.filter_app, IH. reflexivity.
Qed.

Lemma tbody_resolved (st : State) (res : optional (list SpecialEvent)) :
  tbody (resolved_with st res) = then_block (resolved_with st res) res.
Proof. reflexivity. Qed.

Lemma then_block_rows (st : State) (res : optional (list SpecialEvent)) :
  List.filter is_event_row (then_block st res)
  = match res with
    | Some evs => map row_of evs
    | None => []
    end.
Proof.
  destruct res as [[|ev evs]|]; try reflexivity.
  unfold then_block. cbn [length Nat.ltb Nat.leb]. apply filter_rows_each.
Qed.

(** The shown assign dialogs among the nodes of some events are those of
    the events whose id is the one in [assignEntitlementsDialog]. *)
Lemma filter_assign_each (st : State) (evs : list SpecialEvent) :
  List.filter assign_shown (flat_map (each_event st) evs)
  = map (fun ev => AssignEntitlementDialog shown (id ev) (name ev))
        (List.filter (fun ev => strict_eq (id ev) (assignEntitlementsDialog st)) evs).
Proof.
  induction evs as [|ev evs IH]; [reflexivity|].
  cbn [flat_map List.filter]. rewrite List.filter_app, IH.
  unfold each_event, dialog_mode. cbn [List.filter assign_shown app].
  destruct (strict_eq (id ev) (assignEntitlementsDialog st));
    destruct (strict_eq (id ev) (viewEntitlementsDialog st)); reflexivity.
Qed.

Lemma filter_view_each (st : State) (evs : list SpecialEvent) :
  List.filter view_shown (flat_map (each_event st) evs)
  = map (fun ev => ViewEntitlementDialog shown (id ev) (name ev))
        (List.filter (fun ev => strict_eq (id ev) (viewEntitlementsDialog st)) evs).
Proof.
  induction evs as [|ev evs IH]; [reflexivity|].
  cbn [flat_map List.filter]. rewrite List.filter_app, IH.
  unfold each_event, dialog_mode. cbn [List.filter view_shown app].
  destruct (strict_eq (id ev) (assignEntitlementsDialog st));
    destruct (strict_eq (id ev) (viewEntitlementsDialog st)); reflexivity.
Qed.

Lemma then_block_assign (st : State) (res : optional (list SpecialEvent)) :
  List.filter assign_shown (then_block st res)
  = match res with
    | Some evs =>
        map (fun ev => AssignEntitlementDialog shown (id ev) (name ev))
            (List.filter (fun ev => strict_eq (id ev) (assignEntitlementsDialog st)) evs)
    | None => []
    end.
Proof.
  destruct res as [[|ev evs]|]; try reflexivity.
  unfold then_block. cbn [length Nat.ltb Nat.leb]. apply filter_assign_each.
Qed.

Lemma then_block_view (st : State) (res : optional (list SpecialEvent)) :
  List.filter view_shown (then_block st res)
  = match res with
    | Some evs =>
        map (fun ev => ViewEntitlementDialog shown (id ev) (name ev))
            (List.filter (fun ev => strict_eq (id ev) (viewEntitlementsDialog st)) evs)
    | None => []
    end.
Proof.
  destruct res as [[|ev evs]|]; try reflexivity.
  unfold then_block. cbn [length Nat.ltb Nat.leb]. apply filter_view_each.
Qed.

(** Among events with pairwise distinct ids at most one has a given id. *)
Lemma filter_id_le_1 (evs : list SpecialEvent) (open : optional string) :
  NoDup (map id evs) ->
  (length (List.filter (fun ev => strict_eq (id ev) open) evs) <= 1)%nat.
Proof.
  destruct open as [x|]; cbn [strict_eq].
  - induction evs as [|ev evs IH]; intros Hnd; cbn [List.filter length]; [lia|].
    cbn [map] in Hnd. apply NoDup_cons in Hnd as [Hna Hnd].
    destruct (bool_decide (id ev = x)) eqn:Hd; [|apply IH, Hnd].
    apply bool_decide_eq_true_1 in Hd.
    assert (Hnone : List.filter (fun e => bool_decide (id e = x)) evs = []).
    { clear IH Hnd. induction evs as [|e evs IH]; [reflexivity|].
      cbn [List.filter]. destruct (bool_decide (id e = x)) eqn:He.
      - apply bool_decide_eq_true_1 in He. exfalso. apply Hna.
        cbn [map]. rewrite Hd, <- He. left.
      - apply IH. intros Hin. apply Hna. cbn [map]. right. exact Hin. }
    rewrite Hnone. cbn. lia.
  - intros _. induction evs as [|ev evs IH]; cbn [List.filter length]; lia.
Qed.

(** With pairwise distinct ids, the events carrying the id of [e] are [e]
    alone. *)
Lemma filter_id_member (evs : list SpecialEvent) (e : SpecialEvent) :
  NoDup (map id evs) -> In e evs ->
  List.filter (fun ev => strict_eq (id ev) (Some (id e))) evs = [e].
Proof.
  cbn [strict_eq]. induction evs as [|ev evs IH]; intros Hnd Hin; [destruct Hin|].
  cbn [map] in Hnd. apply NoDup_cons in Hnd as [Hna Hnd].
  cbn [List.filter]. destruct (bool_decide (id ev = id e)) eqn:Hd.
  - apply bool_decide_eq_true_1 in Hd.
    destruct Hin as [->|Hin].
    + f_equal.
      pose proof (filter_id_le_1 (e :: evs) (Some (id e))) as Hle.
      cbn [strict_eq List.filter] in Hle.
      rewrite bool_decide_eq_true_2 in Hle by reflexivity.
      cbn [length map] in Hle.
      assert (Hlen : (length (List.filter (fun ev => bool_decide (id ev = id e)) evs) <= 0)%nat).
      { assert (H1 : NoDup (id e :: map id evs)) by (apply NoDup_cons; split; assumption).
        specialize (Hle H1). lia. }
      destruct (List.filter _ evs); [reflexivity|cbn in Hlen; lia].
    + exfalso. apply Hna. rewrite Hd. apply list_elem_of_In, in_map, Hin.
  - apply bool_decide_eq_false_1 in Hd. destruct Hin as [->|Hin]; [congruence|].
    apply IH; assumption.
Qed.

End SpecialEventsBehaviour.

(** X6: once the query has resolved, the table holds one result row per
    event, in the order of the result, and nothing else counts as a
    result row. *)
Theorem special_events_rows_in_order :
  forall (st : SpecialEvents.State) (evs : list SpecialEvents.SpecialEvent),
    List.filter SpecialEvents.is_event_row
      (SpecialEvents.tbody (SpecialEvents.resolved_with st (Some evs)))
    = map SpecialEvents.row_of evs.
Proof.
  intros st evs. rewrite tbody_resolved, then_block_rows. reflexivity.
Qed.

(** X7: whenever the "Found n results" line is shown, [n] is the number of
    result rows in the table. *)
Theorem special_events_banner_counts_rows :
  forall (st : SpecialEvents.State) (n : nat),
    SpecialEvents.found_banner st = Some n ->
    length (List.filter SpecialEvents.is_event_row (SpecialEvents.tbody st)) = n.
Proof.
  intros [r c a v] n. unfold SpecialEvents.found_banner, SpecialEvents.tbody.
  cbn [SpecialEvents.results].
  destruct r as [[|[[evs|]|e]]|]; intros H; try discriminate.
  injection H as <-. rewrite then_block_rows. apply length_map.
Qed.

Lemma special_events_banner_counts_rows_witness :
  length (List.filter SpecialEvents.is_event_row
            (SpecialEvents.tbody
               (SpecialEvents.mkState
                  (Some (Js.Settled (Js.Fulfilled
                     (Some [SpecialEvents.mkSpecialEvent "1" "Launch" "first" ["a"; "b"]
                              None "2024-01-01"]))))
                  SpecialEvents.hidden None None))) = 1%nat.
Proof.
  apply (special_events_banner_counts_rows
           (SpecialEvents.mkState
              (Some (Js.Settled (Js.Fulfilled
                 (Some [SpecialEvents.mkSpecialEvent "1" "Launch" "first" ["a"; "b"]
                          None "2024-01-01"]))))
              SpecialEvents.hidden None None) 1%nat).
  reflexivity.
Defined.

(** X8: a query result without data (a failed query) is shown in the table
    exactly like an empty result: the table is the single "No Special
    Events" row exactly when the result has no data or an empty list.  Only
    the count line tells the two apart: it is absent exactly when the data
    is missing. *)
Theorem special_events_failure_shown_as_empty :
  forall (st : SpecialEvents.State) (res : SpecialEvents.QueryResult),
    (SpecialEvents.tbody
       (SpecialEvents.resolved_with st (SpecialEvents.querySpecialEvents res))
     = [SpecialEvents.MessageRow "No Special Events"]
     <-> SpecialEvents.data res = None
         \/ SpecialEvents.data res = Some (SpecialEvents.mkQueryData []))
    /\ (SpecialEvents.found_banner
          (SpecialEvents.resolved_with st (SpecialEvents.querySpecialEvents res))
        = None
        <-> SpecialEvents.data res = None).
Proof.
  intros st [[[[|ev evs]]|]]; split; split; intros H;
    try reflexivity; try discriminate; auto.
  destruct H as [H|H]; discriminate.
Qed.

(** X9: when the events have pairwise distinct ids, at most one assign
    dialog and at most one view dialog is shown, whatever the page state. *)
Theorem special_events_at_most_one_dialog :
  forall st : SpecialEvents.State,
    match SpecialEvents.results st with
    | Some (Js.Settled (Js.Fulfilled (Some evs))) => NoDup (map SpecialEvents.id evs)
    | _ => True
    end ->
    (length (List.filter SpecialEvents.assign_shown (SpecialEvents.tbody st)) <= 1)%nat
    /\ (length (List.filter SpecialEvents.view_shown (SpecialEvents.tbody st)) <= 1)%nat.
Proof.
  intros st. unfold SpecialEvents.tbody.
  destruct (SpecialEvents.results st) as [[|[[evs|]|e]]|]; intros Hnd;
    try (cbn; split; lia).
  rewrite then_block_assign, then_block_view, !length_map.
  split; apply filter_id_le_1; exact Hnd.
Qed.

Lemma special_events_at_most_one_dialog_witness :
  (length (List.filter SpecialEvents.assign_shown
             (SpecialEvents.tbody
                (SpecialEvents.mkState
                   (Some (Js.Settled (Js.Fulfilled
                      (Some [SpecialEvents.mkSpecialEvent "1" "A" "" [] None "";
                             SpecialEvents.mkSpecialEvent "2" "B" "" [] None ""]))))
                   SpecialEvents.hidden (Some "2") (Some "1")))) <= 1)%nat
  /\ (length (List.filter SpecialEvents.view_shown
                (SpecialEvents.tbody
                   (SpecialEvents.mkState
                      (Some (Js.Settled (Js.Fulfilled
                         (Some [SpecialEvents.mkSpecialEvent "1" "A" "" [] None "";
                                SpecialEvents.mkSpecialEvent "2" "B" "" [] None ""]))))
                      SpecialEvents.hidden (Some "2") (Some "1")))) <= 1)%nat.
Proof.
  apply (special_events_at_most_one_dialog
           (SpecialEvents.mkState
              (Some (Js.Settled (Js.Fulfilled
                 (Some [SpecialEvents.mkSpecialEvent "1" "A" "" [] None "";
                        SpecialEvents.mkSpecialEvent "2" "B" "" [] None ""]))))
              SpecialEvents.hidden (Some "2") (Some "1"))).
  cbn. apply (bool_decide_unpack (NoDup ["1"; "2"])). reflexivity.
Defined.

(** X10: with pairwise distinct ids, a click on "Assign Entitlements" of a
    listed event shows the assign dialog of that event and of no other, and
    leaves the view dialogs as they were. *)
Theorem special_events_click_assign_opens_one :
  forall (st : SpecialEvents.State) (evs : list SpecialEvents.SpecialEvent)
         (e : SpecialEvents.SpecialEvent),
    NoDup (map SpecialEvents.id evs) -> In e evs ->
    List.filter SpecialEvents.assign_shown
      (SpecialEvents.tbody
         (SpecialEvents.click_assign e (SpecialEvents.resolved_with st (Some evs))))
    = [SpecialEvents.AssignEntitlementDialog SpecialEvents.shown
         (SpecialEvents.id e) (SpecialEvents.name e)]
    /\ List.filter SpecialEvents.view_shown
         (SpecialEvents.tbody
            (SpecialEvents.click_assign e (SpecialEvents.resolved_with st (Some evs))))
       = List.filter SpecialEvents.view_shown
           (SpecialEvents.tbody (SpecialEvents.resolved_with st (Some evs))).
Proof.
  intros st evs e Hnd Hin. unfold SpecialEvents.tbody.
  cbn [SpecialEvents.results SpecialEvents.click_assign SpecialEvents.resolved_with].
  rewrite then_block_assign, !then_block_view.
  cbn [SpecialEvents.assignEntitlementsDialog SpecialEvents.viewEntitlementsDialog
       SpecialEvents.click_assign SpecialEvents.resolved_with].
  rewrite (filter_id_member evs e Hnd Hin). split; reflexivity.
Qed.

Lemma special_events_click_assign_opens_one_witness :
  List.filter SpecialEvents.assign_shown
    (SpecialEvents.tbody
       (SpecialEvents.click_assign
          (SpecialEvents.mkSpecialEvent "2" "B" "" [] None "")
          (SpecialEvents.resolved_with
             (SpecialEvents.mkState None SpecialEvents.hidden (Some "1") None)
             (Some [SpecialEvents.mkSpecialEvent "1" "A" "" [] None "";
                    SpecialEvents.mkSpecialEvent "2" "B" "" [] None ""]))))
  = [SpecialEvents.AssignEntitlementDialog SpecialEvents.shown "2" "B"].
Proof.
  apply (special_events_click_assign_opens_one
           (SpecialEvents.mkState None SpecialEvents.hidden (Some "1") None)
           [SpecialEvents.mkSpecialEvent "1" "A" "" [] None "";
            SpecialEvents.mkSpecialEvent "2" "B" "" [] None ""]
           (SpecialEvents.mkSpecialEvent "2" "B" "" [] None "")).
  - cbn. apply (bool_decide_unpack (NoDup ["1"; "2"])). reflexivity.
  - cbn. right. left. reflexivity.
Defined.

(** X11: the setter bound to a dialog's mode can only close: set to
    "hidden" it leaves no assign dialog shown, for any result list, and set
    to "shown" it changes nothing. *)
Theorem special_events_setter_only_closes :
  forall st : SpecialEvents.State,
    List.filter SpecialEvents.assign_shown
      (SpecialEvents.tbody (SpecialEvents.set_assign_mode SpecialEvents.hidden st)) = []
    /\ List.filter SpecialEvents.view_shown
         (SpecialEvents.tbody (SpecialEvents.set_view_mode SpecialEvents.hidden st)) = []
    /\ SpecialEvents.set_assign_mode SpecialEvents.shown st = st
    /\ SpecialEvents.set_view_mode SpecialEvents.shown st = st.
Proof.
  intros st.
  assert (Hnone : forall evs : list SpecialEvents.SpecialEvent,
             List.filter (fun ev => Js.strict_eq (SpecialEvents.id ev) None) evs = []).
  { induction evs as [|ev evs IH]; [reflexivity|]. cbn. exact IH. }
  repeat split; unfold SpecialEvents.tbody;
    cbn [SpecialEvents.set_assign_mode SpecialEvents.set_view_mode SpecialEvents.results];
    destruct (SpecialEvents.results st) as [[|[res|e]]|]; try reflexivity.
  - rewrite then_block_assign. cbn [SpecialEvents.assignEntitlementsDialog].
    destruct res as [evs|]; [rewrite Hnone|]; reflexivity.
  - rewrite then_block_view. cbn [SpecialEvents.viewEntitlementsDialog].
    destruct res as [evs|]; [rewrite Hnone|]; reflexivity.
Qed.

(** X12: when the effect runs with the create dialog hidden it queries
    again: whatever was shown before, the table becomes the spinner row
    alone with no count line until the new query settles; when it runs with
    the dialog shown the results stay as they are. *)
Theorem special_events_effect_requeries_on_close :
  forall st : SpecialEvents.State,
    SpecialEvents.tbody
      (SpecialEvents.effect (SpecialEvents.set_createDialogMode SpecialEvents.hidden st))
    = [SpecialEvents.SpinnerRow]
    /\ SpecialEvents.found_banner
         (SpecialEvents.effect (SpecialEvents.set_createDialogMode SpecialEvents.hidden st))
       = None
    /\ SpecialEvents.results
         (SpecialEvents.effect (SpecialEvents.set_createDialogMode SpecialEvents.shown st))
       = SpecialEvents.results st.
Proof.
  intros st. repeat split.
Qed.

Section LoaderBehaviour.
Import Js Gql.

Lemma emote_load_eval (ev : EmoteLayout.LayoutLoadEvent) (w : World) :
  eval (EmoteLayout.load ev) w
  = {| EmoteLayout.out_id := EmoteLayout.params_id ev;
       EmoteLayout.streamed_emote :=
         then_ (EmoteLayout.fetch ev (EmoteLayout.request_of ev (defaultEmoteSet w)))
               EmoteLayout.on_result |}.
Proof. reflexivity. Qed.

Lemma emote_loads_eval_cons (ev : EmoteLayout.LayoutLoadEvent)
    (rest : list EmoteLayout.LayoutLoadEvent) (w : World) :
  eval (EmoteLayout.loads (ev :: rest)) w
  = eval (EmoteLayout.load ev) w
    :: eval (EmoteLayout.loads rest) (exec (EmoteLayout.load ev) w).
Proof.
  unfold eval, exec. cbn [EmoteLayout.loads]. unfold bind, ret.
  destruct (EmoteLayout.load ev w) as [out w1]. cbn [fst snd].
  destruct (EmoteLayout.loads rest w1) as [outs w2]. reflexivity.
Qed.

Lemma emote_loads_world (evs : list EmoteLayout.LayoutLoadEvent) (w : World) :
  exec (EmoteLayout.loads evs) w
  = {| defaultEmoteSet := defaultEmoteSet w;
       dependencies :=
         list_to_set (map (fun ev => "emotes:" +:+ EmoteLayout.params_id ev) evs)
         ∪ dependencies w;
       operations :=
         operations w
         ++ map (fun ev => EmoteLayout.request_of ev (defaultEmoteSet w)) evs |}.
Proof.
  revert w. induction evs as [|ev rest IH]; intros w.
  - destruct w as [d deps ops]. unfold exec. cbn.
    rewrite app_nil_r. f_equal. set_solver.
  - rewrite emote_loads_cons, IH, emote_load_exec.
    cbn [defaultEmoteSet dependencies operations map list_to_set].
    rewrite <- app_assoc. f_equal. set_solver.
Qed.

End LoaderBehaviour.

(** X13: the user loader's callback fulfils exactly when the result has no
    error, has data and the user is not null; the user it returns is the
    queried one with its roles passed through [filterRoles] and nothing
    else changed. *)
Theorem user_on_result_fulfilled_iff :
  forall (filterRoles : list UserLayout.Role -> list UserLayout.Role)
         (res : Gql.OperationResult UserLayout.Data) (u' : UserLayout.User),
    UserLayout.on_result filterRoles res = Js.Fulfilled u'
    <-> exists u : UserLayout.User,
          Gql.error res = None
          /\ Gql.data res = Some (UserLayout.mkData (Some u))
          /\ u' = UserLayout.mkUser (UserLayout.id u) (UserLayout.platformDisplayName u)
                    (filterRoles (UserLayout.roles u)).
Proof.
  intros f [err dat] u'. unfold UserLayout.on_result. cbn [Gql.error Gql.data].
  split.
  - destruct err as [e|]; [discriminate|].
    destruct dat as [[[u|]]|]; try discriminate.
    intros H. injection H as <-. exists u. repeat split.
  - intros [u [-> [-> ->]]]. reflexivity.
Qed.

(** X14: the callback rejects with no other reasons than its two texts:
    with "User not found" exactly when the result has no error and data
    whose user is null, and with "Failed to load user" exactly when the
    result has an error or no data; an error wins over a null user. *)
Theorem user_on_result_rejections :
  forall (filterRoles : list UserLayout.Role -> list UserLayout.Role)
         (res : Gql.OperationResult UserLayout.Data),
    (forall e : string,
        UserLayout.on_result filterRoles res = Js.Rejected e ->
        e = "Failed to load user" \/ e = "User not found")
    /\ (UserLayout.on_result filterRoles res = Js.Rejected "User not found"
        <-> Gql.error res = None /\ Gql.data res = Some (UserLayout.mkData None))
    /\ (UserLayout.on_result filterRoles res = Js.Rejected "Failed to load user"
        <-> is_Some (Gql.error res) \/ Gql.data res = None).
Proof.
  intros f [err dat]. unfold UserLayout.on_result. cbn [Gql.error Gql.data].
  destruct err as [e0|]; [|destruct dat as [[[u|]]|]]; repeat split;
    try (intros e H; injection H as <-; auto; fail);
    try discriminate; try (intros; reflexivity);
    try (intros [? ?]; discriminate);
    try (intros [[? ?]|?]; discriminate);
    try (intros _; left; eexists; reflexivity);
    try (intros _; right; reflexivity).
Qed.

(** X15: the streamed emote promise settles at the tick the client's promise
    settles, and it is rejected exactly when the client's promise itself is
    rejected, with the same reason: the loader adds no rejection of its
    own. *)
Theorem emote_streamed_rejected_iff :
  forall (ev : EmoteLayout.LayoutLoadEvent) (w : Gql.World) (t : nat) (e : string),
    EmoteLayout.streamed_emote (Gql.eval (EmoteLayout.load ev) w)
    = Js.SettlesAt t (Js.Rejected e)
    <-> EmoteLayout.fetch ev (EmoteLayout.request_of ev (Gql.defaultEmoteSet w))
        = Js.SettlesAt t (Js.Rejected e).
Proof.
  intros ev w t e. rewrite emote_load_eval. cbn [EmoteLayout.streamed_emote].
  destruct (EmoteLayout.fetch ev _) as [|t' [res|e']]; cbn [Js.then_];
    unfold EmoteLayout.on_result; split; intros H; try discriminate;
    injection H as <- <-; reflexivity.
Qed.

(** X16: after any sequence of emote loads the dependency keys registered
    with the router are the earlier ones together with "emotes:" followed
    by the id of every load; the store is left as it was and the earlier
    operations stay in place, followed by one request per load. *)
Theorem emote_loads_world_after :
  forall (evs : list EmoteLayout.LayoutLoadEvent) (w : Gql.World),
    Gql.dependencies (Gql.exec (EmoteLayout.loads evs) w)
    = list_to_set (map (fun ev => "emotes:" +:+ EmoteLayout.params_id ev) evs)
      ∪ Gql.dependencies w
    /\ Gql.defaultEmoteSet (Gql.exec (EmoteLayout.loads evs) w) = Gql.defaultEmoteSet w
    /\ Gql.operations (Gql.exec (EmoteLayout.loads evs) w)
       = Gql.operations w
         ++ map (fun ev => EmoteLayout.request_of ev (Gql.defaultEmoteSet w)) evs.
Proof.
  intros evs w. rewrite emote_loads_world. repeat split.
Qed.

(** X17: in the variables of the emote query the flag [isDefaultSetSet] is
    true exactly when [defaultSetId] is not the empty string, and
    [defaultSetId] is the store's content when the store holds one; an unset
    store and an empty one give the same request. *)
Theorem emote_request_default_set_flag :
  forall (ev : EmoteLayout.LayoutLoadEvent) (defaultSet : Js.optional string),
    exists (flag : bool) (sid : string),
      EmoteLayout.request_variables ev defaultSet
      = [("id", Js.VString (EmoteLayout.params_id ev));
         ("isDefaultSetSet", Js.VBool flag);
         ("defaultSetId", Js.VString sid)]
      /\ (flag = true <-> sid <> "")
      /\ (forall s : string, defaultSet = Some s -> sid = s)
      /\ (defaultSet = None -> sid = "").
Proof.
  intros ev [s|]; unfold EmoteLayout.request_variables;
    cbn [EmoteLayout.store_value Js.truthy Js.nullish_or].
  - exists (negb (bool_decide (s = ""))), s. repeat split.
    + intros H Hs. subst s. discriminate.
    + intros H. rewrite bool_decide_eq_false_2 by exact H. reflexivity.
    + intros s' [= ->]. reflexivity.
    + discriminate.
  - exists false, "". repeat split; try discriminate; try congruence.
Qed.

(** X18: a sequence of emote loads returns one output per load, in order,
    each carrying the id of its own load. *)
Theorem emote_loads_outputs :
  forall (evs : list EmoteLayout.LayoutLoadEvent) (w : Gql.World),
    map EmoteLayout.out_id (Gql.eval (EmoteLayout.loads evs) w)
    = map EmoteLayout.params_id evs.
Proof.
  intros evs. induction evs as [|ev rest IH]; intros w; [reflexivity|].
  rewrite emote_loads_eval_cons. cbn [map]. rewrite IH, emote_load_eval.
  reflexivity.
Qed.

Section ThemeBehaviour.
Import Theme.

Lemma cascade_theme_variable (prefers_light is_root_el : bool)
    (hc : string -> bool) (p : string) :
  In p (map fst dark_theme) ->
  cascade stylesheet prefers_light is_root_el hc p
  = if hc "light-theme" then value_in light_theme p
    else if hc "dark-theme" then value_in dark_theme p
    else if is_root_el then
      (if prefers_light then value_in light_theme p else value_in dark_theme p)
    else None.
Proof.
  intros Hin. cbn in Hin.
  repeat (destruct Hin as [<-|Hin];
          [destruct prefers_light, is_root_el;
           cbv; destruct (hc "dark-theme"), (hc "light-theme"); reflexivity|]).
  destruct Hin.
Qed.

Lemma cascade_fixed_variable (prefers_light is_root_el : bool)
    (hc : string -> bool) (p : string) :
  In p (map fst root_fixed) ->
  cascade stylesheet prefers_light is_root_el hc p
  = if is_root_el then value_in root_fixed p else None.
Proof.
  intros Hin. cbn in Hin.
  repeat (destruct Hin as [<-|Hin];
          [destruct prefers_light, is_root_el;
           cbv; destruct (hc "dark-theme"), (hc "light-theme"); reflexivity|]).
  destruct Hin.
Qed.

End ThemeBehaviour.

(** X19: the dark and the light theme declare the same custom properties,
    in the same order, each once; switching theme leaves no themed
    variable unset. *)
Theorem theme_same_variables :
  map fst Theme.dark_theme = map fst Theme.light_theme
  /\ NoDup (map fst Theme.dark_theme)
  /\ (forall p : string,
        is_Some (Theme.value_in Theme.dark_theme p)
        <-> is_Some (Theme.value_in Theme.light_theme p)).
Proof.
  assert (Hnames : map fst Theme.dark_theme = map fst Theme.light_theme)
    by reflexivity.
  split; [exact Hnames|]. split.
  - apply (bool_decide_unpack (NoDup (map fst Theme.dark_theme))). vm_compute.
    reflexivity.
  - assert (Hfind : forall (l : list (string * string)) (p : string),
               is_Some (Theme.value_in l p) <-> In p (map fst l)).
    { intros l p. unfold Theme.value_in. induction l as [|[k v] l IH].
      - cbn. split; [intros [? ?]; discriminate|intros []].
      - cbn [List.find map fst]. destruct (bool_decide (k = p)) eqn:Hk.
        + apply bool_decide_eq_true_1 in Hk. split; [intros _; left; exact Hk|].
          intros _. eexists. reflexivity.
        + apply bool_decide_eq_false_1 in Hk. rewrite IH. cbn [In].
          split; [intros H; right; exact H|intros [H|H]; [congruence|exact H]]. }
    intros p. rewrite !Hfind, Hnames. reflexivity.
Qed.

(** X20: for every themed variable and every element, an explicit theme
    class decides the value whatever the user's colour-scheme preference
    is, [light-theme] winning when both classes are present; without a
    theme class the root element follows the preference with dark as the
    default, and any other element sets nothing of its own. *)
Theorem theme_class_overrides_preference :
  forall (prefers_light : bool) (el : Theme.Element) (p : string),
    In p (map fst Theme.dark_theme) ->
    Theme.cascaded prefers_light el p
    = if bool_decide ("light-theme" ∈ Theme.classes el)
      then Theme.value_in Theme.light_theme p
      else if bool_decide ("dark-theme" ∈ Theme.classes el)
      then Theme.value_in Theme.dark_theme p
      else if Theme.is_root el
      then (if prefers_light then Theme.value_in Theme.light_theme p
            else Theme.value_in Theme.dark_theme p)
      else None.
Proof.
  intros prefers_light el p Hin. unfold Theme.cascaded.
  rewrite (cascade_theme_variable _ _ _ p Hin). reflexivity.
Qed.

Lemma theme_class_overrides_preference_witness :
  Theme.cascaded true (Theme.mkElement true ["dark-theme"]) "--text" = Some "#ffffff".
Proof.
  apply (theme_class_overrides_preference true
           (Theme.mkElement true ["dark-theme"]) "--text").
  cbn. do 15 right. left. reflexivity.
Defined.

(** X21: the seven fixed variables of [:root] (--danger, --approve, ...) are
    set on the root element only and keep their value under either
    preference and any theme class. *)
Theorem theme_fixed_variables_constant :
  forall (prefers_light : bool) (el : Theme.Element) (p : string),
    In p (map fst Theme.root_fixed) ->
    Theme.cascaded prefers_light el p
    = if Theme.is_root el then Theme.value_in Theme.root_fixed p else None.
Proof.
  intros prefers_light el p Hin. unfold Theme.cascaded.
  apply cascade_fixed_variable, Hin.
Qed.

Lemma theme_fixed_variables_constant_witness :
  Theme.cascaded true (Theme.mkElement true ["light-theme"]) "--danger" = Some "#f6412d".
Proof.
  apply (theme_fixed_variables_constant true
           (Theme.mkElement true ["light-theme"]) "--danger").
  cbn. left. reflexivity.
Defined.

(** X22: in the image-processor manifest the service and the deployment
    fit together: the service selects the deployment's pods in its
    namespace, the deployment's own selector selects its pod template, and
    every service port forwards to a declared container port of the same
    number. *)
Theorem image_processor_service_reaches_pods :
  ImageProcessor.routes_to ImageProcessor.service ImageProcessor.deployment = true
  /\ ImageProcessor.selects (ImageProcessor.matchLabels ImageProcessor.deployment)
       (ImageProcessor.template_labels ImageProcessor.deployment) = true
  /\ Forall (fun c =>
               Forall (fun p =>
                         ImageProcessor.resolve_port c (ImageProcessor.targetPort p)
                         = Some (ImageProcessor.port p)
                         /\ In (ImageProcessor.port p)
                              (map ImageProcessor.containerPort (ImageProcessor.ports c)))
                      (ImageProcessor.s_ports ImageProcessor.service)
               /\ NoDup (map ImageProcessor.cp_name (ImageProcessor.ports c))
               /\ NoDup (map ImageProcessor.containerPort (ImageProcessor.ports c)))
            (ImageProcessor.containers ImageProcessor.deployment).
Proof.
  split; [reflexivity|]. split; [reflexivity|].
  unfold ImageProcessor.deployment. cbn [ImageProcessor.containers].
  constructor; [|constructor]. split; [|split].
  - unfold ImageProcessor.service. cbn [ImageProcessor.s_ports].
    repeat (constructor; [split; [reflexivity | cbn; auto] |]). constructor.
  - apply (bool_decide_unpack (NoDup ["grpc"; "metrics"])). reflexivity.
  - apply (bool_decide_unpack (NoDup [50051%Z; 9000%Z])). reflexivity.
Qed.

(** X23: each of the three activity tables is well formed: its kind names
    are pairwise distinct and their codes count up from 0 in declaration
    order, a kind's code leads back to that kind, every ORDER BY column is
    a column of the table, and the three table names differ. *)
Theorem activity_schema_well_formed :
  Forall (fun t =>
            NoDup (map fst (Activities.kind_codes t))
            /\ map snd (Activities.kind_codes t)
               = seqZ 0 (Z.of_nat (length (Activities.kind_codes t)))
            /\ Forall (fun kc =>
                         Activities.kind_code t (fst kc) = Some (snd kc)
                         /\ Activities.kind_name t (snd kc) = Some (fst kc))
                      (Activities.kind_codes t)
            /\ Forall (fun c => In c (Activities.column_names t))
                      (Activities.order_by t))
         Activities.schema
  /\ NoDup (map Activities.table_name Activities.schema).
Proof.
  split.
  - unfold Activities.schema.
    repeat (constructor; [split; [|split; [|split]]|]); try constructor.
    all: try (apply (bool_decide_unpack _); vm_compute; reflexivity).
    all: try reflexivity.
    all: repeat (constructor; [first [split; reflexivity | cbn; auto 10] |]).
    all: constructor.
  - apply (bool_decide_unpack _). vm_compute. reflexivity.
Qed.

(** X24: the native select and the dropped list offer the same choices:
    in every rendering the native select lists the value of each option, in
    order, and when the list is dropped its buttons select exactly those
    values, in the same order. *)
Theorem select_native_and_dropped_agree :
  forall (p : Select.Props) (st : Select.State),
    Select.native_values (Select.render p st) = map Select.value (Select.options p)
    /\ Select.dropped_handlers (Select.options p) st
       = if Select.expanded st
         then map Select.OnSelect (Select.native_values (Select.render p st))
         else [].
Proof.
  intros p st.
  assert (Hnative : Select.native_values (Select.render p st)
                    = map Select.value (Select.options p)).
  { unfold Select.render, Select.native_values. cbn [flat_map app].
    assert (Hdrop : flat_map
                      (fun c => match c with
                                | Select.NativeSelect _ os =>
                                    omap (fun o => match o with
                                                   | Select.NativeOption v => Some v
                                                   | _ => None
                                                   end) os
                                | _ => []
                                end)
                      (Select.dropdown (Select.options p) st) = []).
    { unfold Select.dropdown. destruct (Select.expanded st); reflexivity. }
    rewrite Hdrop, !app_nil_r. clear Hdrop.
    induction (Select.options p) as [|o l IH]; [reflexivity|].
    cbn [map]. change (omap ?f (?x :: ?xs)) with
      (match f x with Some y => y :: omap f xs | None => omap f xs end).
    cbn beta iota. rewrite IH. reflexivity. }
  split; [exact Hnative|].
  rewrite dropped_handlers_expanded, Hnative, map_map. reflexivity.
Qed.
